(** * VL53L5CX platform glue: the headers [fake/stdint.h], [platform.h]
      and [wrap.h] as data, and what a C compiler makes of them.

    The repository holds no function bodies: the three headers declare
    fixed-width integer typedefs guarded by static assertions, an opaque
    platform handle, six callback prototypes and a set of constants
    re-exported from the vendor driver.  The development below embeds

    - the declarations of each header, in source order, as values of a
      small declaration syntax ([decl]);
    - the part of a C compiler that those declarations exercise: typedef
      scopes, [sizeof] / [_Alignof] with [_Alignas], struct layout,
      [_Static_assert], conversion of initialisers to [uint8_t];
    - the callbacks whose bodies live outside the headers, written from
      their documented contract over an explicit byte buffer.  *)

From Stdlib Require Import ZArith Lia List String Bool.
From stdpp Require Import base option list.
Import ListNotations.
Local Open Scope string_scope.
Local Open Scope Z_scope.

(** ** C types and declarations *)

Module C.

(** The arithmetic types that [fake/stdint.h] spells out. *)
Inductive basic : Type :=
| SignedChar      (* signed char *)
| Short           (* short *)
| UnsignedChar    (* unsigned char *)
| UnsignedShort   (* unsigned short *)
| UnsignedInt.    (* unsigned int *)

Inductive ctype : Type :=
| Tvoid
| Tbasic (b : basic)
| Tnamed (name : string)            (* a typedef name *)
| Tpointer (t : ctype)
| Tarray (t : ctype) (n : Z).

(** A struct member, with its optional [_Alignas(k)] specifier. *)
Record member : Type := Member {
  m_alignas : option Z;
  m_type : ctype;
  m_name : string
}.

(** A constant expression as the static assertions use it:
    [sizeof(T) == n]. *)
Inductive cexpr : Type :=
| SizeofEq (t : ctype) (n : Z).

Record prototype : Type := Prototype {
  fn_ret : ctype;
  fn_name : string;
  fn_params : list (ctype * string)
}.

Inductive decl : Type :=
| Typedef (t : ctype) (name : string)
| TypedefStruct (members : list member) (name : string)
| StaticAssert (e : cexpr) (msg : string)
| Function (p : prototype).

(** What the target ABI fixes.  [sizeof(char)] is 1 in every C
    implementation, so only the wider types are parameters. *)
Record abi : Type := Abi {
  sizeof_short : Z;
  alignof_short : Z;
  sizeof_int : Z;
  alignof_int : Z;
  sizeof_pointer : Z;
  alignof_pointer : Z
}.

(** Size and alignment of an object type, in bytes. *)
Record layout : Type := Layout {
  size : Z;
  align : Z
}.

(** The typedef names in scope, most recent first. *)
Definition scope : Type := list (string * layout).

Fixpoint lookup_typedef (name : string) (sc : scope) : option layout :=
  match sc with
  | [] => None
  | (n, l) :: rest => if String.eqb name n then Some l else lookup_typedef name rest
  end.

Definition layout_basic (a : abi) (b : basic) : layout :=
  match b with
  | SignedChar | UnsignedChar => Layout 1 1
  | Short | UnsignedShort => Layout (sizeof_short a) (alignof_short a)
  | UnsignedInt => Layout (sizeof_int a) (alignof_int a)
  end.

(** [sizeof] and [_Alignof] together; [None] for an incomplete type
    ([void]) or a name that is not in scope. *)
Fixpoint layout_of (a : abi) (sc : scope) (t : ctype) : option layout :=
  match t with
  | Tvoid => None
  | Tbasic b => Some (layout_basic a b)
  | Tnamed n => lookup_typedef n sc
  | Tpointer _ => Some (Layout (sizeof_pointer a) (alignof_pointer a))
  | Tarray elt n =>
      match layout_of a sc elt with
      | Some l => Some (Layout (n * size l) (align l))
      | None => None
      end
  end.

Definition sizeof (a : abi) (sc : scope) (t : ctype) : option Z :=
  size <$> layout_of a sc t.

Definition alignof (a : abi) (sc : scope) (t : ctype) : option Z :=
  align <$> layout_of a sc t.

(** The least multiple of [al] that is no less than [n]. *)
Definition align_up (n al : Z) : Z := ((n + al - 1) / al) * al.

(** Layout of one member: [_Alignas(k)] raises the alignment to [k];
    a [k] below the type's own alignment is a constraint violation. *)
Definition member_layout (a : abi) (sc : scope) (m : member) : option layout :=
  match layout_of a sc (m_type m) with
  | None => None
  | Some l =>
      match m_alignas m with
      | None => Some l
      | Some k => if align l <=? k then Some (Layout (size l) k) else None
      end
  end.

(** Members are placed in order, each at the next offset that suits
    its alignment; the accumulator is the end offset so far and the
    strictest alignment seen. *)
Fixpoint place_members (a : abi) (sc : scope) (ms : list member)
    (acc : layout) : option layout :=
  match ms with
  | [] => Some acc
  | m :: rest =>
      match member_layout a sc m with
      | None => None
      | Some l =>
          place_members a sc rest
            (Layout (align_up (size acc) (align l) + size l)
                    (Z.max (align acc) (align l)))
      end
  end.

(** A struct is as aligned as its strictest member and its size is
    padded to a multiple of that alignment, so that arrays of it keep
    every element aligned. *)
Definition struct_layout (a : abi) (sc : scope) (ms : list member) : option layout :=
  match place_members a sc ms (Layout 0 1) with
  | None => None
  | Some l => Some (Layout (align_up (size l) (align l)) (align l))
  end.

Definition eval_cexpr (a : abi) (sc : scope) (e : cexpr) : option bool :=
  match e with
  | SizeofEq t n =>
      match sizeof a sc t with
      | Some s => Some (s =? n)
      | None => None
      end
  end.

(** Outcome of translating a header. *)
Inductive build (A : Type) : Type :=
| Built (x : A)
| BuildError (msg : string).
Arguments Built {A} x.
Arguments BuildError {A} msg.

(** One declaration: typedefs extend the scope, a static assertion
    that does not hold stops the build with its message, prototypes
    leave the scope as it is. *)
Definition declare (a : abi) (sc : scope) (d : decl) : build scope :=
  match d with
  | Typedef t name =>
      match layout_of a sc t with
      | Some l => Built ((name, l) :: sc)
      | None => BuildError ("incomplete or unknown type in typedef " ++ name)%string
      end
  | TypedefStruct ms name =>
      match struct_layout a sc ms with
      | Some l => Built ((name, l) :: sc)
      | None => BuildError ("invalid member in struct " ++ name)%string
      end
  | StaticAssert e msg =>
      match eval_cexpr a sc e with
      | Some true => Built sc
      | Some false => BuildError msg
      | None => BuildError "invalid operand in static assertion"
      end
  | Function _ => Built sc
  end.

Fixpoint translate (a : abi) (sc : scope) (ds : list decl) : build scope :=
  match ds with
  | [] => Built sc
  | d :: rest =>
      match declare a sc d with
      | Built sc' => translate a sc' rest
      | BuildError msg => BuildError msg
      end
  end.

(** Width in bits of a value of type [t] (8-bit bytes). *)
Definition width_bits (a : abi) (sc : scope) (t : ctype) : option Z :=
  (fun s => 8 * s) <$> sizeof a sc t.

End C.

(** ** [fake/stdint.h] *)

Module Stdint.
Import C.

Definition int8_t := Tnamed "int8_t".
Definition int16_t := Tnamed "int16_t".
Definition uint8_t := Tnamed "uint8_t".
Definition uint16_t := Tnamed "uint16_t".
Definition uint32_t := Tnamed "uint32_t".

Definition stdint_h : list decl :=
  [ Typedef (Tbasic SignedChar) "int8_t";
    Typedef (Tbasic Short) "int16_t";
    Typedef (Tbasic UnsignedChar) "uint8_t";
    Typedef (Tbasic UnsignedShort) "uint16_t";
    Typedef (Tbasic UnsignedInt) "uint32_t";
    StaticAssert (SizeofEq int8_t 1) "int8_t wrong size";
    StaticAssert (SizeofEq int16_t 2) "int16_t wrong size";
    StaticAssert (SizeofEq uint8_t 1) "uint8_t wrong size";
    StaticAssert (SizeofEq uint16_t 2) "uint16_t wrong size";
    StaticAssert (SizeofEq uint32_t 4) "uint32_t wrong size" ].

(** The ILP32 data model of the intended RISC-V 32 target. *)
Definition ilp32 : abi := Abi 2 2 4 4 4 4.

(** A 16-bit target on which [int] is two bytes wide. *)
Definition ip16 : abi := Abi 2 2 2 2 2 2.

End Stdint.

(** ** [platform.h] *)

Module Platform.
Import C Stdint.

Definition VL53L5CX_Platform := Tnamed "VL53L5CX_Platform".

(** [typedef struct { _Alignas(8) uint8_t _[20]; } VL53L5CX_Platform;] *)
Definition VL53L5CX_Platform_members : list member :=
  [ Member (Some 8) (Tarray uint8_t 20) "_" ].

Definition VL53L5CX_RdByte : prototype :=
  Prototype uint8_t "VL53L5CX_RdByte"
    [ (Tpointer VL53L5CX_Platform, "p_platform");
      (uint16_t, "addr");
      (Tpointer uint8_t, "p_out") ].

Definition VL53L5CX_WrByte : prototype :=
  Prototype uint8_t "VL53L5CX_WrByte"
    [ (Tpointer VL53L5CX_Platform, "p_platform");
      (uint16_t, "addr");
      (uint8_t, "value") ].

Definition VL53L5CX_RdMulti : prototype :=
  Prototype uint8_t "VL53L5CX_RdMulti"
    [ (Tpointer VL53L5CX_Platform, "p_platform");
      (uint16_t, "addr");
      (Tpointer uint8_t, "p_out");
      (uint32_t, "size") ].

Definition VL53L5CX_WrMulti : prototype :=
  Prototype uint8_t "VL53L5CX_WrMulti"
    [ (Tpointer VL53L5CX_Platform, "p_platform");
      (uint16_t, "addr");
      (Tpointer uint8_t, "p_values");
      (uint32_t, "size") ].

Definition VL53L5CX_SwapBuffer : prototype :=
  Prototype Tvoid "VL53L5CX_SwapBuffer"
    [ (Tpointer uint8_t, "buffer");
      (uint16_t, "size") ].

Definition VL53L5CX_WaitMs : prototype :=
  Prototype uint8_t "VL53L5CX_WaitMs"
    [ (Tpointer VL53L5CX_Platform, "p_platform");
      (uint32_t, "ms") ].

(** The six callbacks, in the order the header declares them. *)
Definition callbacks : list prototype :=
  [ VL53L5CX_RdByte; VL53L5CX_WrByte; VL53L5CX_RdMulti; VL53L5CX_WrMulti;
    VL53L5CX_SwapBuffer; VL53L5CX_WaitMs ].

(** The header after [#include <stdint.h>].  The generated
    ["tmp/config.h"] it also includes only sets feature macros and
    declares nothing that the lines below refer to. *)
Definition platform_h : list decl :=
  stdint_h
  ++ [ TypedefStruct VL53L5CX_Platform_members "VL53L5CX_Platform" ]
  ++ map Function callbacks.

(** Type and width of the parameter called [name]. *)
Definition param_type (p : prototype) (name : string) : option ctype :=
  fst <$> List.find (fun x => String.eqb (snd x) name) (fn_params p).

Definition param_width (a : abi) (sc : scope) (p : prototype) (name : string)
  : option Z :=
  match param_type p name with
  | Some t => width_bits a sc t
  | None => None
  end.

Definition return_width (a : abi) (sc : scope) (p : prototype) : option Z :=
  width_bits a sc (fn_ret p).

Definition ctype_eqb : ctype -> ctype -> bool :=
  fix go (s t : ctype) : bool :=
    match s, t with
    | Tvoid, Tvoid => true
    | Tbasic b, Tbasic c =>
        match b, c with
        | SignedChar, SignedChar | Short, Short | UnsignedChar, UnsignedChar
        | UnsignedShort, UnsignedShort | UnsignedInt, UnsignedInt => true
        | _, _ => false
        end
    | Tnamed n, Tnamed m => String.eqb n m
    | Tpointer s', Tpointer t' => go s' t'
    | Tarray s' n, Tarray t' m => go s' t' && (n =? m)
    | _, _ => false
    end.

(** Is [t] a pointer to the platform handle? *)
Definition is_handle_pointer (t : ctype) : bool :=
  ctype_eqb t (Tpointer VL53L5CX_Platform).

Definition first_param_is_handle (p : prototype) : bool :=
  match fn_params p with
  | (t, _) :: _ => is_handle_pointer t
  | [] => false
  end.

Definition has_handle_param (p : prototype) : bool :=
  existsb (fun x => is_handle_pointer (fst x)) (fn_params p).

(** The capacity and alignment that the handle reserves: what
    [sizeof(VL53L5CX_Platform)] and [_Alignof(VL53L5CX_Platform)]
    evaluate to once the header is translated. *)
Definition handle_layout (a : abi) : option layout :=
  match translate a [] platform_h with
  | Built sc => layout_of a sc VL53L5CX_Platform
  | BuildError _ => None
  end.

End Platform.

(** ** [wrap.h] *)

Module Wrap.

(** The value of a constant: a number or a string literal. *)
Inductive value : Type :=
| VInt (n : Z)
| VStr (s : string).

(** Conversion to [uint8_t]: reduction modulo 256. *)
Definition to_uint8 (n : Z) : Z := n mod 256.

(** The two shapes of vendor macro that [wrap.h] refers to:
    [#define M ((uint8_t) nU)] and [#define M "text"]. *)
Inductive macro : Type :=
| U8Cast (n : Z)
| StrLit (s : string).

Definition macros : Type := list (string * macro).

Fixpoint lookup_macro (name : string) (ms : macros) : option macro :=
  match ms with
  | [] => None
  | (n, m) :: rest => if String.eqb name n then Some m else lookup_macro name rest
  end.

Definition expand (m : macro) : value :=
  match m with
  | U8Cast n => VInt (to_uint8 n)
  | StrLit s => VStr s
  end.

Definition macro_value (ms : macros) (name : string) : option value :=
  expand <$> lookup_macro name ms.

(** The declarations of [wrap.h]; every initialiser is a vendor macro. *)
Inductive decl : Type :=
| ConstCharPtr (name : string) (init : string)   (* const char* name = init; *)
| ConstUint8 (name : string) (init : string)     (* const uint8_t name = init; *)
| Enum (tag : string) (enumerators : list (string * string)).

(** The active declarations, in source order.  The declarations that
    the header keeps in comments ([DEFAULT_I2C_ADDRESS], the finer
    status flags down to [INVALID_PARAM], [MAX_RESULTS_SIZE],
    [TARGETS_PER_ZONE]) are not part of it; the [size_t] typedef is,
    but no active declaration uses it. *)
Definition wrap_h : list decl :=
  [ ConstCharPtr "API_REVISION" "VL53L5CX_API_REVISION";
    Enum "Resolution"
      [ ("_4X4", "VL53L5CX_RESOLUTION_4X4");
        ("_8X8", "VL53L5CX_RESOLUTION_8X8") ];
    Enum "TargetOrder"
      [ ("CLOSEST", "VL53L5CX_TARGET_ORDER_CLOSEST");
        ("STRONGEST", "VL53L5CX_TARGET_ORDER_STRONGEST") ];
    Enum "RangingMode"
      [ ("CONTINUOUS", "VL53L5CX_RANGING_MODE_CONTINUOUS");
        ("AUTONOMOUS", "VL53L5CX_RANGING_MODE_AUTONOMOUS") ];
    Enum "PowerMode"
      [ ("SLEEP", "VL53L5CX_POWER_MODE_SLEEP");
        ("WAKEUP", "VL53L5CX_POWER_MODE_WAKEUP") ];
    ConstUint8 "ST_OK" "VL53L5CX_STATUS_OK";
    ConstUint8 "ST_ERROR" "VL53L5CX_STATUS_ERROR" ].

(** What a declaration puts in the symbol table. *)
Inductive symbol : Type :=
| Constant (name : string) (v : value)
| Enumeration (tag : string) (members : list (string * Z)).

(** An enumerator takes the integer value of its initialiser; a
    string is not an integer constant expression. *)
Fixpoint enumerate (ms : macros) (es : list (string * string))
  : option (list (string * Z)) :=
  match es with
  | [] => Some []
  | (name, init) :: rest =>
      match macro_value ms init, enumerate ms rest with
      | Some (VInt n), Some tl => Some ((name, n) :: tl)
      | _, _ => None
      end
  end.

Definition declare (ms : macros) (d : decl) : option symbol :=
  match d with
  | ConstCharPtr name init =>
      match macro_value ms init with
      | Some (VStr s) => Some (Constant name (VStr s))
      | _ => None
      end
  | ConstUint8 name init =>
      match macro_value ms init with
      | Some (VInt n) => Some (Constant name (VInt (to_uint8 n)))
      | _ => None
      end
  | Enum tag es =>
      match enumerate ms es with
      | Some members => Some (Enumeration tag members)
      | None => None
      end
  end.

(** The symbols of a header, or [None] when a declaration does not
    compile against the vendor macros [ms]. *)
Fixpoint symbols (ms : macros) (ds : list decl) : option (list symbol) :=
  match ds with
  | [] => Some []
  | d :: rest =>
      match declare ms d, symbols ms rest with
      | Some s, Some tl => Some (s :: tl)
      | _, _ => None
      end
  end.

(** Every named constant a binding generator finds: the [const]
    objects and the enumerators of every enum. *)
Fixpoint exported (syms : list symbol) : list (string * value) :=
  match syms with
  | [] => []
  | Constant name v :: rest => (name, v) :: exported rest
  | Enumeration _ members :: rest =>
      map (fun e => (fst e, VInt (snd e))) members ++ exported rest
  end.

Fixpoint lookup_constant (name : string) (tbl : list (string * value))
  : option value :=
  match tbl with
  | [] => None
  | (n, v) :: rest => if String.eqb name n then Some v else lookup_constant name rest
  end.

Fixpoint enum_members (tag : string) (syms : list symbol)
  : option (list (string * Z)) :=
  match syms with
  | [] => None
  | Enumeration t members :: rest =>
      if String.eqb tag t then Some members else enum_members tag rest
  | Constant _ _ :: rest => enum_members tag rest
  end.

(** Is [n] the value of some exported constant? *)
Definition exports_value (n : Z) (tbl : list (string * value)) : bool :=
  existsb (fun e => match snd e with VInt m => m =? n | VStr _ => false end) tbl.

(** Modelled from the spec: the vendor header [vl53l5cx_api.h], which
    is not part of the repository.  The macros and their values are
    the ones [wrap.h] records next to each use and the specification
    lists: resolutions 16 and 64, status 0 / 127 / 255, and the finer
    status flags that [wrap.h] leaves commented out. *)
Definition vl53l5cx_api_h : macros :=
  [ ("VL53L5CX_API_REVISION", StrLit "VL53L5CX_2.0.0");
    ("VL53L5CX_RESOLUTION_4X4", U8Cast 16);
    ("VL53L5CX_RESOLUTION_8X8", U8Cast 64);
    ("VL53L5CX_TARGET_ORDER_CLOSEST", U8Cast 1);
    ("VL53L5CX_TARGET_ORDER_STRONGEST", U8Cast 2);
    ("VL53L5CX_RANGING_MODE_CONTINUOUS", U8Cast 1);
    ("VL53L5CX_RANGING_MODE_AUTONOMOUS", U8Cast 3);
    ("VL53L5CX_POWER_MODE_SLEEP", U8Cast 0);
    ("VL53L5CX_POWER_MODE_WAKEUP", U8Cast 1);
    ("VL53L5CX_STATUS_OK", U8Cast 0);
    ("VL53L5CX_STATUS_TIMEOUT_ERROR", U8Cast 1);
    ("VL53L5CX_STATUS_CORRUPTED_FRAME", U8Cast 2);
    ("VL53L5CX_STATUS_CRC_CSUM_FAILED", U8Cast 3);
    ("VL53L5CX_STATUS_XTALK_FAILED", U8Cast 4);
    ("VL53L5CX_MCU_ERROR", U8Cast 66);
    ("VL53L5CX_STATUS_INVALID_PARAM", U8Cast 127);
    ("VL53L5CX_STATUS_ERROR", U8Cast 255) ].

(** The symbol table of [wrap.h] built against a vendor header. *)
Definition wrap_symbols (ms : macros) : option (list symbol) :=
  symbols ms wrap_h.

Definition wrap_exports (ms : macros) : option (list (string * value)) :=
  exported <$> wrap_symbols ms.

End Wrap.

(** ** The callbacks over an explicit buffer *)

Module Callbacks.

Abbreviation byte := Byte.byte.

(** Status bytes returned by the callbacks. *)
Definition STATUS_OK : Z := 0.
Definition STATUS_ERROR : Z := 255.

(** *** Swap buffer *)

(** One group: the four bytes at [base .. base+3] are stored back in
    reverse order, [ABCD -> DCBA].  A group that reaches past the end
    of the buffer is an out-of-bounds access. *)
Definition swap_group (buf : list byte) (base : nat) : option (list byte) :=
  a ← buf !! base;
  b ← buf !! (base + 1)%nat;
  c ← buf !! (base + 2)%nat;
  d ← buf !! (base + 3)%nat;
  Some (<[(base + 3)%nat := a]>
       (<[(base + 2)%nat := b]>
       (<[(base + 1)%nat := c]>
       (<[base := d]> buf)))).

(** The loop [for (i = base; groups-- > 0; i += 4)]. *)
Fixpoint swap_groups (groups : nat) (base : nat) (buf : list byte)
  : option (list byte) :=
  match groups with
  | O => Some buf
  | S g => buf' ← swap_group buf base; swap_groups g (base + 4)%nat buf'
  end.

(** Modelled from the spec: the body of [VL53L5CX_SwapBuffer], which
    [platform.h] only declares.  [size] is the [uint16_t] byte count;
    the buffer is changed in place, group by group.  A [size] that is
    not a multiple of 4 is outside the contract and a [size] beyond the
    end of the buffer is an out-of-bounds access: both give [None]. *)
Definition VL53L5CX_SwapBuffer (buffer : list byte) (size : Z)
  : option (list byte) :=
  if (0 <=? size) && (size <? 65536) && (size mod 4 =? 0)
  then swap_groups (Z.to_nat (size / 4)) 0 buffer
  else None.

(** *** Read multiple, write multiple *)

(** The transport behind the handle: a burst that starts at register
    [addr] moves one byte at a time; a byte that cannot be moved is a
    transport failure. *)
Class Transport (T : Type) : Type := {
  burst_read : T -> Z -> nat -> T * option byte;
  burst_write : T -> Z -> nat -> byte -> T * bool
}.

Section Multi.
Context {T : Type} `{Transport T}.

(** Bytes [i .. i + count - 1] of a burst read, each stored at its
    own index of [out]; stops at the first failure. *)
Fixpoint read_from (count : nat) (i : nat) (p : T) (addr : Z) (out : list byte)
  : T * list byte * Z :=
  match count with
  | O => (p, out, STATUS_OK)
  | S n =>
      match burst_read p addr i with
      | (p', Some b) => read_from n (S i) p' addr (<[i := b]> out)
      | (p', None) => (p', out, STATUS_ERROR)
      end
  end.

Fixpoint write_from (count : nat) (i : nat) (p : T) (addr : Z) (values : list byte)
  : option (T * Z) :=
  match count with
  | O => Some (p, STATUS_OK)
  | S n =>
      b ← values !! i;
      match burst_write p addr i b with
      | (p', true) => write_from n (S i) p' addr values
      | (p', false) => Some (p', STATUS_ERROR)
      end
  end.

(** Modelled from the spec: the body of [VL53L5CX_RdMulti], which
    [platform.h] only declares.  Exactly [size] bytes are read from
    the transport into [p_out]; a transport failure is status 255.
    [size] is a [uint32_t]; a [size] beyond the capacity of [p_out]
    is an out-of-bounds access ([None]). *)
Definition VL53L5CX_RdMulti (p : T) (addr : Z) (p_out : list byte) (size : Z)
  : option (T * list byte * Z) :=
  if (0 <=? size) && (size <? 2 ^ 32) && (size <=? Z.of_nat (length p_out))
  then Some (read_from (Z.to_nat size) 0 p addr p_out)
  else None.

(** Modelled from the spec: the body of [VL53L5CX_WrMulti], which
    [platform.h] only declares.  Exactly [size] bytes of [p_values]
    are handed to the transport; the buffer itself is not written. *)
Definition VL53L5CX_WrMulti (p : T) (addr : Z) (p_values : list byte) (size : Z)
  : option (T * Z) :=
  if (0 <=? size) && (size <? 2 ^ 32) && (size <=? Z.of_nat (length p_values))
  then write_from (Z.to_nat size) 0 p addr p_values
  else None.

End Multi.

(** A transport for experiments: a register file that records every
    byte written, answers a read with the register's content and fails
    on the addresses at or above [limit]. *)
Record regfile : Type := Regfile {
  regs : Z -> byte;
  limit : Z
}.

#[export] Instance regfile_transport : Transport regfile := {|
  burst_read r addr i :=
    let a := addr + Z.of_nat i in
    (r, if a <? limit r then Some (regs r a) else None);
  burst_write r addr i b :=
    let a := addr + Z.of_nat i in
    if a <? limit r
    then (Regfile (fun x => if x =? a then b else regs r x) (limit r), true)
    else (r, false)
|}.

(** Registers 0 to 3 answer, each holding [0xff]. *)
Definition four_registers : regfile := Regfile (fun _ => Byte.xff) 4.

End Callbacks.

(** ** Stated properties, as definitions *)

Module Props.
Import C Stdint Platform.

(** The scope that [fake/stdint.h] leaves behind on the ABI [a]. *)
Definition stdint_scope (a : abi) : scope :=
  [ ("uint32_t", layout_basic a UnsignedInt);
    ("uint16_t", layout_basic a UnsignedShort);
    ("uint8_t", layout_basic a UnsignedChar);
    ("int16_t", layout_basic a Short);
    ("int8_t", layout_basic a SignedChar) ].

(** Every fixed-width typedef has its nominal size. *)
Definition nominal_sizes (a : abi) (sc : scope) : Prop :=
  sizeof a sc int8_t = Some 1 /\
  sizeof a sc int16_t = Some 2 /\
  sizeof a sc uint8_t = Some 1 /\
  sizeof a sc uint16_t = Some 2 /\
  sizeof a sc uint32_t = Some 4.

(** The ABI gives the underlying types the sizes the typedefs promise;
    [char] has size 1 by definition. *)
Definition abi_matches (a : abi) : Prop :=
  sizeof_short a = 2 /\ sizeof_int a = 4.

(** The scope at the end of [platform.h]. *)
Definition platform_scope (a : abi) : scope :=
  ("VL53L5CX_Platform", Layout 24 8) :: stdint_scope a.

(** The widths of the scalar arguments: every register address is
    16 bits wide, the size of both multi-byte transfers and the
    duration of the wait are 32 bits wide. *)
Definition mandated_widths (a : abi) (sc : scope) : Prop :=
  (forall p t, In p callbacks -> param_type p "addr" = Some t ->
     width_bits a sc t = Some 16) /\
  param_width a sc VL53L5CX_RdMulti "size" = Some 32 /\
  param_width a sc VL53L5CX_WrMulti "size" = Some 32 /\
  (forall p t, In p callbacks -> param_type p "ms" = Some t ->
     width_bits a sc t = Some 32).

(** Every callback that returns a value returns 8 bits of status. *)
Definition status_returns (a : abi) (sc : scope) : Prop :=
  forall p, In p callbacks -> fn_ret p <> Tvoid -> return_width a sc p = Some 8.

(** The handle comes first everywhere but in buffer-swap, which has
    no handle among its parameters. *)
Definition handle_first_except_swap : Prop :=
  forall p, In p callbacks ->
    if String.eqb (fn_name p) "VL53L5CX_SwapBuffer"
    then has_handle_param p = false
    else first_param_is_handle p = true.

(** What a parameter is, as far as the callbacks tell types apart:
    the pointer to the handle, a pointer to bytes, or a scalar of so
    many bits. *)
Inductive shape : Type :=
| HandlePointer
| BytePointer
| Scalar (bits : Z)
| OtherPointer
| Unsized.

Definition shape_of (a : abi) (sc : scope) (t : ctype) : shape :=
  if is_handle_pointer t then HandlePointer
  else if ctype_eqb t (Tpointer uint8_t) then BytePointer
  else match t with
       | Tpointer _ => OtherPointer
       | _ => match width_bits a sc t with
              | Some w => Scalar w
              | None => Unsized
              end
       end.

(** A prototype read for widths: its name, the width of what it
    returns ([None] for [void]) and every parameter, in order, with
    its name and shape. *)
Definition signature (a : abi) (sc : scope) (p : prototype)
  : string * option Z * list (string * shape) :=
  (fn_name p, return_width a sc p,
   map (fun x => (snd x, shape_of a sc (fst x))) (fn_params p)).

(** The initialiser of every enumerator of a header. *)
Fixpoint enum_initialisers (ds : list Wrap.decl) : list (string * string) :=
  match ds with
  | [] => []
  | Wrap.Enum _ es :: rest => es ++ enum_initialisers rest
  | _ :: rest => enum_initialisers rest
  end.

(** The three status values, each exported under a name: success and
    fatal error as [ST_OK] and [ST_ERROR], the invalid-parameter value
    127 under whatever name. *)
Definition three_status_constants (tbl : list (string * Wrap.value)) : Prop :=
  Wrap.lookup_constant "ST_OK" tbl = Some (Wrap.VInt 0) /\
  Wrap.lookup_constant "ST_ERROR" tbl = Some (Wrap.VInt 255) /\
  exists name, Wrap.lookup_constant name tbl = Some (Wrap.VInt 127).

End Props.

(** ** What the headers declare, read off their declarations *)

Module Surface.
Import C Stdint Platform.



(** Every diagnostic of a header, in source order: a declaration
    that fails is reported and translation goes on with the scope as
    it was, so a later failure is reported too. *)
Fixpoint diagnose (a : abi) (sc : scope) (ds : list C.decl) : list string :=
  match ds with
  | [] => []
  | d :: rest =>
      match C.declare a sc d with
      | Built sc' => diagnose a sc' rest
      | BuildError msg => msg :: diagnose a sc rest
      end
  end.

(** The names a declaration of [wrap.h] introduces, each with the
    vendor macro that initialises it. *)
Definition bindings_of (d : Wrap.decl) : list (string * string) :=
  match d with
  | Wrap.ConstCharPtr name init => [(name, init)]
  | Wrap.ConstUint8 name init => [(name, init)]
  | Wrap.Enum _ es => es
  end.

Definition bindings (ds : list Wrap.decl) : list (string * string) :=
  flat_map bindings_of ds.



(** An export [e] stands for the binding [b]: same name, and the
    value of the initialiser. *)
Definition exports_binding (ms : Wrap.macros)
    (b : string * string) (e : string * Wrap.value) : Prop :=
  fst e = fst b /\ Wrap.macro_value ms (snd b) = Some (snd e).

(** The constants that [wrap.h] keeps in comments. *)
Definition disabled_names : list string :=
  [ "DEFAULT_I2C_ADDRESS"; "ST_TIMEOUT_ERROR"; "CORRUPTED_FRAME";
    "CRC_CSUM_FAILED"; "XTALK_FAILED"; "MCU_ERROR"; "INVALID_PARAM";
    "MAX_RESULTS_SIZE"; "TARGETS_PER_ZONE" ].

End Surface.

(** ** Theorems *)

Import C Stdint Platform Props.

(** Case analysis on the value of the vendor macro [x]; [H] is the
    hypothesis that the header compiled. *)
Ltac by_macro ms x H E :=
  destruct (Wrap.macro_value ms x) as [[?|?]|] eqn:E;
  cbn in H; try discriminate H.

(** Case analysis on membership in the list of callbacks. *)
Ltac each_callback H :=
  cbn in H; repeat (destruct H as [<- | H]); try contradiction.

Lemma translate_app (a : abi) (ds1 ds2 : list C.decl) (sc : scope) :
  translate a sc (ds1 ++ ds2) =
  match translate a sc ds1 with
  | Built sc' => translate a sc' ds2
  | BuildError msg => BuildError msg
  end.
Proof.
  revert sc. induction ds1 as [|d ds1 IH]; intros sc; cbn.
  - reflexivity.
  - destruct (declare a sc d); [apply IH | reflexivity].
Qed.

(** What the header builds to, by cases on the two sizes that the
    ABI is free to choose. *)
Lemma translate_stdint_h (a : abi) :
  translate a [] stdint_h =
  if sizeof_short a =? 2
  then if sizeof_int a =? 4
       then Built (stdint_scope a)
       else BuildError "uint32_t wrong size"
  else BuildError "int16_t wrong size".
Proof.
  cbn. destruct (sizeof_short a =? 2) eqn:Hs; cbn; [|reflexivity].
  rewrite Hs. cbn. destruct (sizeof_int a =? 4); reflexivity.
Qed.

Lemma stdint_built_iff (a : abi) (sc : scope) :
  translate a [] stdint_h = Built sc <-> abi_matches a /\ sc = stdint_scope a.
Proof.
  rewrite translate_stdint_h. unfold abi_matches.
  destruct (Z.eqb_spec (sizeof_short a) 2) as [Hs|Hs];
    destruct (Z.eqb_spec (sizeof_int a) 4) as [Hi|Hi]; split;
    try (intros [[? ?] ?]; congruence); try discriminate.
  intros [= <-]. auto.
Qed.

Lemma nominal_stdint_scope (a : abi) :
  abi_matches a -> nominal_sizes a (stdint_scope a).
Proof.
  intros [Hs Hi]. unfold nominal_sizes, sizeof. cbn. rewrite Hs, Hi. auto.
Qed.

(** C10.  On every target ABI, if [fake/stdint.h] builds then the five
    typedefs [int8_t], [int16_t], [uint8_t], [uint16_t], [uint32_t]
    have sizes 1, 2, 1, 2 and 4; and on an ABI whose [short] is not 2
    bytes or whose [int] is not 4 bytes one of the static assertions
    stops the build with its message. *)
Theorem stdint_static_assertions (a : abi) :
  (forall sc, translate a [] stdint_h = Built sc -> nominal_sizes a sc) /\
  (~ abi_matches a ->
   exists msg, translate a [] stdint_h = BuildError msg /\
               In msg ["int16_t wrong size"; "uint32_t wrong size"]).
Proof.
  split.
  - intros sc Hsc. apply stdint_built_iff in Hsc as [Hm ->].
    now apply nominal_stdint_scope.
  - intros Hno. rewrite translate_stdint_h. unfold abi_matches in Hno.
    destruct (Z.eqb_spec (sizeof_short a) 2) as [Hs|Hs];
      [destruct (Z.eqb_spec (sizeof_int a) 4) as [Hi|Hi]|].
    + tauto.
    + eexists; split; [reflexivity | cbn; auto].
    + eexists; split; [reflexivity | cbn; auto].
Qed.

Lemma stdint_static_assertions_witness :
  nominal_sizes ilp32 (stdint_scope ilp32) /\
  exists msg, translate ip16 [] stdint_h = BuildError msg /\
              In msg ["int16_t wrong size"; "uint32_t wrong size"].
Proof.
  split.
  - apply (proj1 (stdint_static_assertions ilp32)). reflexivity.
  - apply (proj2 (stdint_static_assertions ip16)).
    unfold abi_matches; cbn. lia.
Defined.

Lemma translate_prototypes (a : abi) (sc : scope) (ps : list prototype) :
  translate a sc (map Function ps) = Built sc.
Proof. induction ps as [|p ps IH]; cbn; auto. Qed.

(** The struct typedef, placed after [fake/stdint.h]: the array of 20
    [uint8_t] ends at offset 20 and the size is padded to 24. *)
Lemma translate_handle (a : abi) :
  translate a (stdint_scope a)
    [TypedefStruct VL53L5CX_Platform_members "VL53L5CX_Platform"]
  = Built (platform_scope a).
Proof. reflexivity. Qed.

Lemma platform_built_iff (a : abi) (sc : scope) :
  translate a [] platform_h = Built sc <-> abi_matches a /\ sc = platform_scope a.
Proof.
  unfold platform_h. rewrite translate_app.
  destruct (translate a [] stdint_h) as [sc0|msg] eqn:Hstd.
  - apply stdint_built_iff in Hstd as [Hm ->].
    rewrite translate_app, translate_handle, translate_prototypes.
    split; [intros [= <-]; auto | intros [_ ->]; reflexivity].
  - split; [discriminate|].
    intros [Hm _].
    assert (Hb : translate a [] stdint_h = Built (stdint_scope a))
      by (apply stdint_built_iff; auto).
    congruence.
Qed.

(** The handle's layout on every ABI on which the headers build. *)
Lemma handle_layout_built (a : abi) :
  abi_matches a -> handle_layout a = Some (Layout 24 8).
Proof.
  intros Hm. unfold handle_layout.
  assert (Hb : translate a [] platform_h = Built (platform_scope a))
    by (apply platform_built_iff; auto).
  rewrite Hb. reflexivity.
Qed.

Lemma handle_layout_unbuilt (a : abi) :
  ~ abi_matches a -> handle_layout a = None.
Proof.
  intros Hno. unfold handle_layout.
  destruct (translate a [] platform_h) as [sc|msg] eqn:Hb; [|reflexivity].
  apply platform_built_iff in Hb as [Hm _]. contradiction.
Qed.

Lemma align_up_spec (n al : Z) :
  0 < al -> n <= align_up n al < n + al /\ (align_up n al) mod al = 0.
Proof.
  intros Hal. unfold align_up. split.
  - pose proof (Z.div_mod (n + al - 1) al ltac:(lia)) as Hdm.
    pose proof (Z.mod_pos_bound (n + al - 1) al Hal) as Hb. nia.
  - apply Z.mod_mul. lia.
Qed.

(** C9.  On every ABI on which the headers build, the 20-byte array
    with [_Alignas(8)] makes [VL53L5CX_Platform] an object of 24 bytes,
    the least multiple of its alignment 8 that holds 20 bytes; so every
    state of up to 24 bytes, for instance one of 21 to 24 bytes, is no
    larger than the region. *)
Theorem handle_padded_to_24 (a : abi) :
  abi_matches a ->
  exists l, handle_layout a = Some l /\
    size l = 24 /\ align l = 8 /\
    size l = align_up 20 (align l) /\
    (forall n, 20 <= n -> n mod align l = 0 -> size l <= n) /\
    (forall concrete : layout, size concrete <= 24 -> size concrete <= size l).
Proof.
  intros Hm. exists (Layout 24 8). split; [now apply handle_layout_built|].
  cbn. repeat split; try reflexivity; try lia.
  intros n Hn Hmod. apply Z.mod_divide in Hmod; [|lia].
  destruct Hmod as [k ->]. lia.
Qed.

Lemma handle_padded_to_24_witness :
  exists l, handle_layout ilp32 = Some l /\
    size l = 24 /\ align l = 8 /\
    size l = align_up 20 (align l) /\
    (forall n, 20 <= n -> n mod align l = 0 -> size l <= n) /\
    (forall concrete : layout, size concrete <= 24 -> size concrete <= size l).
Proof.
  apply (handle_padded_to_24 ilp32). unfold abi_matches; cbn. lia.
Defined.

(** C6.  On every ABI on which [platform.h] builds, the six
    signatures read for widths are exactly: read-byte (handle, 16-bit
    [addr], byte pointer), write-byte (handle, 16-bit [addr], 8-bit
    [value]), read-multiple and write-multiple (handle, 16-bit [addr],
    byte pointer, 32-bit [size]), buffer-swap (byte pointer, 16-bit
    [size]) and wait (handle, 32-bit [ms]).  So every register address
    is 16 bits wide, the size of both multi-byte transfers and the
    milliseconds are 32 bits wide, every callback that returns a value
    returns 8 bits of status (all but buffer-swap, which returns
    [void]), and the handle pointer is the first parameter of every
    callback but buffer-swap, which has no handle parameter. *)
Theorem callback_signatures (a : abi) (sc : scope) :
  translate a [] platform_h = Built sc ->
  map (signature a sc) callbacks =
    [ ("VL53L5CX_RdByte", Some 8,
       [ ("p_platform", HandlePointer); ("addr", Scalar 16);
         ("p_out", BytePointer) ]);
      ("VL53L5CX_WrByte", Some 8,
       [ ("p_platform", HandlePointer); ("addr", Scalar 16);
         ("value", Scalar 8) ]);
      ("VL53L5CX_RdMulti", Some 8,
       [ ("p_platform", HandlePointer); ("addr", Scalar 16);
         ("p_out", BytePointer); ("size", Scalar 32) ]);
      ("VL53L5CX_WrMulti", Some 8,
       [ ("p_platform", HandlePointer); ("addr", Scalar 16);
         ("p_values", BytePointer); ("size", Scalar 32) ]);
      ("VL53L5CX_SwapBuffer", None,
       [ ("buffer", BytePointer); ("size", Scalar 16) ]);
      ("VL53L5CX_WaitMs", Some 8,
       [ ("p_platform", HandlePointer); ("ms", Scalar 32) ]) ] /\
  mandated_widths a sc /\
  status_returns a sc /\
  handle_first_except_swap /\
  (forall p, In p callbacks -> fn_name p <> "VL53L5CX_SwapBuffer" ->
     return_width a sc p = Some 8) /\
  fn_ret VL53L5CX_SwapBuffer = Tvoid /\
  return_width a sc VL53L5CX_SwapBuffer = None /\
  param_width a sc VL53L5CX_SwapBuffer "size" = Some 16 /\
  length callbacks = 6%nat.
Proof.
  intros Hb. apply platform_built_iff in Hb as [[Hs Hi] ->].
  split.
  { unfold signature, shape_of, return_width, width_bits, sizeof. cbn.
    rewrite Hs, Hi. reflexivity. }
  unfold mandated_widths, status_returns, handle_first_except_swap,
    param_width, return_width, width_bits, sizeof.
  repeat split; cbn; try rewrite Hs; try rewrite Hi; try reflexivity.
  - intros p t Hin Ht. each_callback Hin; cbn in Ht; try discriminate;
      injection Ht as <-; cbn; rewrite Hs; reflexivity.
  - intros p t Hin Ht. each_callback Hin; cbn in Ht; try discriminate;
      injection Ht as <-; cbn; rewrite Hi; reflexivity.
  - intros p Hin Hret. each_callback Hin; reflexivity.
  - intros p Hin. each_callback Hin; reflexivity.
  - intros p Hin Hne. each_callback Hin; reflexivity.
Qed.

Lemma callback_signatures_witness :
  map (signature ilp32 (platform_scope ilp32)) callbacks =
    [ ("VL53L5CX_RdByte", Some 8,
       [ ("p_platform", HandlePointer); ("addr", Scalar 16);
         ("p_out", BytePointer) ]);
      ("VL53L5CX_WrByte", Some 8,
       [ ("p_platform", HandlePointer); ("addr", Scalar 16);
         ("value", Scalar 8) ]);
      ("VL53L5CX_RdMulti", Some 8,
       [ ("p_platform", HandlePointer); ("addr", Scalar 16);
         ("p_out", BytePointer); ("size", Scalar 32) ]);
      ("VL53L5CX_WrMulti", Some 8,
       [ ("p_platform", HandlePointer); ("addr", Scalar 16);
         ("p_values", BytePointer); ("size", Scalar 32) ]);
      ("VL53L5CX_SwapBuffer", None,
       [ ("buffer", BytePointer); ("size", Scalar 16) ]);
      ("VL53L5CX_WaitMs", Some 8,
       [ ("p_platform", HandlePointer); ("ms", Scalar 32) ]) ] /\
  status_returns ilp32 (platform_scope ilp32) /\
  handle_first_except_swap.
Proof.
  destruct (callback_signatures ilp32 (platform_scope ilp32) eq_refl)
    as (Htable & _ & Hstatus & Hhandle & _).
  split; [exact Htable|]. split; assumption.
Defined.

(** *** The constants of [wrap.h] *)

Lemma to_uint8_range (n : Z) : 0 <= Wrap.to_uint8 n < 256.
Proof. unfold Wrap.to_uint8. apply Z.mod_pos_bound. lia. Qed.

Lemma to_uint8_idempotent (n : Z) :
  Wrap.to_uint8 (Wrap.to_uint8 n) = Wrap.to_uint8 n.
Proof. unfold Wrap.to_uint8. apply Z.mod_mod. lia. Qed.

(** An integer vendor macro is a [uint8_t] cast, hence an 8-bit
    value that a further conversion to [uint8_t] leaves alone. *)
Lemma macro_value_int (ms : Wrap.macros) (name : string) (n : Z) :
  Wrap.macro_value ms name = Some (Wrap.VInt n) ->
  0 <= n < 256 /\ Wrap.to_uint8 n = n.
Proof.
  unfold Wrap.macro_value. destruct (Wrap.lookup_macro name ms) as [[k|s]|];
    cbn; intros [= <-]. split; [apply to_uint8_range | apply to_uint8_idempotent].
Qed.

(** The table of [wrap.h] against any vendor header that it compiles
    with: every export is the value of its initialiser. *)
Lemma wrap_exports_inv (ms : Wrap.macros) (tbl : list (string * Wrap.value)) :
  Wrap.wrap_exports ms = Some tbl ->
  exists rev r4 r8 oc os mc ma ps pw ok err,
    Wrap.macro_value ms "VL53L5CX_API_REVISION" = Some (Wrap.VStr rev) /\
    Wrap.macro_value ms "VL53L5CX_RESOLUTION_4X4" = Some (Wrap.VInt r4) /\
    Wrap.macro_value ms "VL53L5CX_RESOLUTION_8X8" = Some (Wrap.VInt r8) /\
    Wrap.macro_value ms "VL53L5CX_TARGET_ORDER_CLOSEST" = Some (Wrap.VInt oc) /\
    Wrap.macro_value ms "VL53L5CX_TARGET_ORDER_STRONGEST" = Some (Wrap.VInt os) /\
    Wrap.macro_value ms "VL53L5CX_RANGING_MODE_CONTINUOUS" = Some (Wrap.VInt mc) /\
    Wrap.macro_value ms "VL53L5CX_RANGING_MODE_AUTONOMOUS" = Some (Wrap.VInt ma) /\
    Wrap.macro_value ms "VL53L5CX_POWER_MODE_SLEEP" = Some (Wrap.VInt ps) /\
    Wrap.macro_value ms "VL53L5CX_POWER_MODE_WAKEUP" = Some (Wrap.VInt pw) /\
    Wrap.macro_value ms "VL53L5CX_STATUS_OK" = Some (Wrap.VInt ok) /\
    Wrap.macro_value ms "VL53L5CX_STATUS_ERROR" = Some (Wrap.VInt err) /\
    Wrap.wrap_symbols ms =
      Some [ Wrap.Constant "API_REVISION" (Wrap.VStr rev);
             Wrap.Enumeration "Resolution" [("_4X4", r4); ("_8X8", r8)];
             Wrap.Enumeration "TargetOrder" [("CLOSEST", oc); ("STRONGEST", os)];
             Wrap.Enumeration "RangingMode" [("CONTINUOUS", mc); ("AUTONOMOUS", ma)];
             Wrap.Enumeration "PowerMode" [("SLEEP", ps); ("WAKEUP", pw)];
             Wrap.Constant "ST_OK" (Wrap.VInt ok);
             Wrap.Constant "ST_ERROR" (Wrap.VInt err) ] /\
    tbl = [ ("API_REVISION", Wrap.VStr rev);
            ("_4X4", Wrap.VInt r4); ("_8X8", Wrap.VInt r8);
            ("CLOSEST", Wrap.VInt oc); ("STRONGEST", Wrap.VInt os);
            ("CONTINUOUS", Wrap.VInt mc); ("AUTONOMOUS", Wrap.VInt ma);
            ("SLEEP", Wrap.VInt ps); ("WAKEUP", Wrap.VInt pw);
            ("ST_OK", Wrap.VInt ok); ("ST_ERROR", Wrap.VInt err) ].
Proof.
  unfold Wrap.wrap_exports, Wrap.wrap_symbols. intros H.
  cbn in H.
  by_macro ms "VL53L5CX_API_REVISION" H Erev.
  by_macro ms "VL53L5CX_RESOLUTION_4X4" H E4.
  by_macro ms "VL53L5CX_RESOLUTION_8X8" H E8.
  by_macro ms "VL53L5CX_TARGET_ORDER_CLOSEST" H Eoc.
  by_macro ms "VL53L5CX_TARGET_ORDER_STRONGEST" H Eos.
  by_macro ms "VL53L5CX_RANGING_MODE_CONTINUOUS" H Emc.
  by_macro ms "VL53L5CX_RANGING_MODE_AUTONOMOUS" H Ema.
  by_macro ms "VL53L5CX_POWER_MODE_SLEEP" H Eps.
  by_macro ms "VL53L5CX_POWER_MODE_WAKEUP" H Epw.
  by_macro ms "VL53L5CX_STATUS_OK" H Eok.
  by_macro ms "VL53L5CX_STATUS_ERROR" H Eerr.
  apply macro_value_int in Eok as Hok, Eerr as Herr.
  destruct Hok as [_ Hok], Herr as [_ Herr]. rewrite Hok, Herr in H.
  injection H as <-.
  do 11 eexists. repeat (split; [reflexivity|]).
  cbn. rewrite Erev, E4, E8, Eoc, Eos, Emc, Ema, Eps, Epw, Eok, Eerr. cbn.
  rewrite Hok, Herr. split; reflexivity.
Qed.

(** C5.  Against every vendor header that [wrap.h] compiles with,
    each enumerator is exported with exactly the value of the vendor
    macro that initialises it, an 8-bit value, and each of the four
    enums has exactly its two enumerators; against the vendor values
    the enums are Resolution [_4X4] = 16 and [_8X8] = 64, TargetOrder
    [CLOSEST] = 1 and [STRONGEST] = 2, RangingMode [CONTINUOUS] = 1 and
    [AUTONOMOUS] = 3, PowerMode [SLEEP] = 0 and [WAKEUP] = 1. *)
Theorem enum_values_match_vendor :
  (forall ms syms, Wrap.wrap_symbols ms = Some syms ->
     (forall name init, In (name, init) (enum_initialisers Wrap.wrap_h) ->
        exists n, Wrap.macro_value ms init = Some (Wrap.VInt n) /\
                  Wrap.lookup_constant name (Wrap.exported syms) = Some (Wrap.VInt n) /\
                  0 <= n < 256) /\
     (forall tag, In tag ["Resolution"; "TargetOrder"; "RangingMode"; "PowerMode"] ->
        exists x y, Wrap.enum_members tag syms = Some [x; y])) /\
  (exists syms, Wrap.wrap_symbols Wrap.vl53l5cx_api_h = Some syms /\
     Wrap.enum_members "Resolution" syms = Some [("_4X4", 16); ("_8X8", 64)] /\
     Wrap.enum_members "TargetOrder" syms = Some [("CLOSEST", 1); ("STRONGEST", 2)] /\
     Wrap.enum_members "RangingMode" syms = Some [("CONTINUOUS", 1); ("AUTONOMOUS", 3)] /\
     Wrap.enum_members "PowerMode" syms = Some [("SLEEP", 0); ("WAKEUP", 1)]).
Proof.
  split.
  - intros ms syms Hsyms.
    assert (Hex : Wrap.wrap_exports ms = Some (Wrap.exported syms))
      by (unfold Wrap.wrap_exports; rewrite Hsyms; reflexivity).
    apply wrap_exports_inv in Hex
      as (rev & r4 & r8 & oc & os & mc & ma & ps & pw & ok & err & Hrev & H4 & H8
          & Hoc & Hos & Hmc & Hma & Hps & Hpw & Hok & Herr & Hs & Ht).
    rewrite Hsyms in Hs. injection Hs as ->. split.
    + intros name init Hin. cbn in Hin.
      repeat (destruct Hin as [[= <- <-] | Hin]); try contradiction;
        eexists; (split; [eassumption|]); (split; [reflexivity|]);
        eapply macro_value_int; eassumption.
    + intros tag Hin. cbn in Hin.
      repeat (destruct Hin as [<- | Hin]); try contradiction;
        do 2 eexists; reflexivity.
  - eexists. split; [reflexivity|]. repeat split; reflexivity.
Qed.

Lemma enum_values_match_vendor_witness :
  exists n, Wrap.macro_value Wrap.vl53l5cx_api_h "VL53L5CX_RESOLUTION_8X8"
            = Some (Wrap.VInt n) /\
    (exists syms, Wrap.wrap_symbols Wrap.vl53l5cx_api_h = Some syms /\
       Wrap.lookup_constant "_8X8" (Wrap.exported syms) = Some (Wrap.VInt n)) /\
    0 <= n < 256.
Proof.
  destruct (Wrap.wrap_symbols Wrap.vl53l5cx_api_h) as [syms|] eqn:Hsyms;
    [|discriminate Hsyms].
  destruct (proj1 enum_values_match_vendor Wrap.vl53l5cx_api_h syms Hsyms)
    as [Hfid _].
  destruct (Hfid "_8X8" "VL53L5CX_RESOLUTION_8X8") as (n & Hn & Hl & Hr).
  - cbn. tauto.
  - exists n. split; [exact Hn|]. split; [|exact Hr].
    exists syms. split; [reflexivity | exact Hl].
Defined.

Lemma lookup_constant_exports (name : string) (n : Z)
    (tbl : list (string * Wrap.value)) :
  Wrap.lookup_constant name tbl = Some (Wrap.VInt n) ->
  Wrap.exports_value n tbl = true.
Proof.
  unfold Wrap.exports_value.
  induction tbl as [|[k v] tbl IH]; cbn [Wrap.lookup_constant existsb snd];
    [discriminate|].
  destruct (String.eqb name k).
  - intros [= ->]. rewrite Z.eqb_refl. reflexivity.
  - intros Hl. rewrite (IH Hl). apply orb_true_r.
Qed.

(** C4, counterexample.  The table [wrap.h] exports against the vendor values holds no
    constant of value 127: the declaration of [INVALID_PARAM] is
    commented out, so the three status constants are not all there. *)
Lemma invalid_param_not_exported :
  exists tbl, Wrap.wrap_exports Wrap.vl53l5cx_api_h = Some tbl /\
    Wrap.lookup_constant "INVALID_PARAM" tbl = None /\
    Wrap.exports_value 127 tbl = false /\
    ~ three_status_constants tbl.
Proof.
  eexists. split; [reflexivity|]. split; [reflexivity|]. split; [reflexivity|].
  intros (_ & _ & name & Hname).
  apply lookup_constant_exports in Hname. discriminate Hname.
Qed.

(** C4, as the header has it.  Against every vendor header that
    [wrap.h] compiles with, [ST_OK] and [ST_ERROR] are exported with
    exactly the values of the vendor's success and error macros, and
    no constant called [INVALID_PARAM] is exported; against the vendor
    values [ST_OK] is 0, [ST_ERROR] is 255 and no exported constant
    has the value 127. *)
Theorem status_constants_exported :
  (forall ms tbl, Wrap.wrap_exports ms = Some tbl ->
     Wrap.lookup_constant "ST_OK" tbl = Wrap.macro_value ms "VL53L5CX_STATUS_OK" /\
     Wrap.lookup_constant "ST_ERROR" tbl = Wrap.macro_value ms "VL53L5CX_STATUS_ERROR" /\
     Wrap.lookup_constant "INVALID_PARAM" tbl = None) /\
  (exists tbl, Wrap.wrap_exports Wrap.vl53l5cx_api_h = Some tbl /\
     Wrap.lookup_constant "ST_OK" tbl = Some (Wrap.VInt 0) /\
     Wrap.lookup_constant "ST_ERROR" tbl = Some (Wrap.VInt 255) /\
     Wrap.exports_value 127 tbl = false).
Proof.
  split.
  - intros ms tbl Hex.
    apply wrap_exports_inv in Hex
      as (rev & r4 & r8 & oc & os & mc & ma & ps & pw & ok & err & Hrev & H4 & H8
          & Hoc & Hos & Hmc & Hma & Hps & Hpw & Hok & Herr & Hs & ->).
    rewrite Hok, Herr. repeat split; reflexivity.
  - eexists. split; [reflexivity|]. repeat split; reflexivity.
Qed.

Lemma status_constants_exported_witness :
  exists tbl, Wrap.wrap_exports Wrap.vl53l5cx_api_h = Some tbl /\
    Wrap.lookup_constant "ST_OK" tbl = Some (Wrap.VInt 0) /\
    Wrap.lookup_constant "ST_ERROR" tbl = Some (Wrap.VInt 255) /\
    Wrap.lookup_constant "INVALID_PARAM" tbl = None.
Proof.
  destruct (Wrap.wrap_exports Wrap.vl53l5cx_api_h) as [tbl|] eqn:Hex;
    [|discriminate Hex].
  destruct (proj1 status_constants_exported Wrap.vl53l5cx_api_h tbl Hex)
    as (Hok & Herr & Hinv).
  exists tbl. split; [reflexivity|]. rewrite Hok, Herr. repeat split.
  exact Hinv.
Defined.

(** *** Buffer swap *)

Import Callbacks.

Lemma swap_group_total (buf : list byte) (base : nat) :
  (base + 4 <= length buf)%nat -> is_Some (swap_group buf base).
Proof.
  intros Hlen. unfold swap_group.
  destruct (lookup_lt_is_Some_2 buf base ltac:(lia)) as [a ->].
  destruct (lookup_lt_is_Some_2 buf (base + 1)%nat ltac:(lia)) as [b ->].
  destruct (lookup_lt_is_Some_2 buf (base + 2)%nat ltac:(lia)) as [c ->].
  destruct (lookup_lt_is_Some_2 buf (base + 3)%nat ltac:(lia)) as [d ->].
  cbn. eauto.
Qed.

(** One group: the length stays, the four bytes of the group are
    mirrored and every other byte keeps its place. *)
Lemma swap_group_lookup (buf buf' : list byte) (base : nat) :
  swap_group buf base = Some buf' ->
  length buf' = length buf /\
  forall i : nat,
    buf' !! i = if decide (base <= i < base + 4)%nat
                then buf !! (base + (base + 3 - i))%nat
                else buf !! i.
Proof.
  unfold swap_group.
  destruct (buf !! base) as [a|] eqn:Ha; [|discriminate].
  destruct (buf !! (base + 1)%nat) as [b|] eqn:Hb; [|discriminate].
  destruct (buf !! (base + 2)%nat) as [c|] eqn:Hc; [|discriminate].
  destruct (buf !! (base + 3)%nat) as [d|] eqn:Hd; [|discriminate].
  cbn. intros [= <-]. split; [now rewrite !length_insert|].
  apply lookup_lt_Some in Hd as Hlen.
  intros i. case_decide as Hi.
  - assert (Hcase : i = base \/ i = (base + 1)%nat \/ i = (base + 2)%nat
                    \/ i = (base + 3)%nat) by lia.
    destruct Hcase as [-> | [-> | [-> | ->]]];
      rewrite ?list_lookup_insert_ne by lia;
      rewrite list_lookup_insert_eq by (rewrite ?length_insert; lia);
      symmetry.
    + replace (base + (base + 3 - base))%nat with (base + 3)%nat by lia. exact Hd.
    + replace (base + (base + 3 - (base + 1)))%nat with (base + 2)%nat by lia.
      exact Hc.
    + replace (base + (base + 3 - (base + 2)))%nat with (base + 1)%nat by lia.
      exact Hb.
    + replace (base + (base + 3 - (base + 3)))%nat with base by lia. exact Ha.
  - rewrite !list_lookup_insert_ne by lia. reflexivity.
Qed.

(** The loop over [n] groups from group number [g0] on: the bytes of
    these groups are mirrored within their group, the others stay. *)
Lemma swap_groups_lookup (n : nat) :
  forall (g0 : nat) (buf buf' : list byte),
    swap_groups n (4 * g0) buf = Some buf' ->
    length buf' = length buf /\
    forall g r : nat, (r < 4)%nat ->
      buf' !! (4 * g + r)%nat =
      if decide (g0 <= g < g0 + n)%nat
      then buf !! (4 * g + (3 - r))%nat
      else buf !! (4 * g + r)%nat.
Proof.
  induction n as [|n IH]; intros g0 buf buf'; cbn [swap_groups].
  - intros [= <-]. split; [reflexivity|]. intros g r Hr.
    case_decide; [lia | reflexivity].
  - destruct (swap_group buf (4 * g0)) as [buf1|] eqn:H1; [|discriminate].
    cbn [mbind option_bind].
    replace (4 * g0 + 4)%nat with (4 * S g0)%nat by lia.
    intros Hrest. apply IH in Hrest as [Hlen Hrest].
    apply swap_group_lookup in H1 as [Hlen1 H1].
    split; [congruence|]. intros g r Hr.
    rewrite (Hrest g r Hr).
    case_decide as Hlate.
    + rewrite H1. rewrite decide_False by lia.
      rewrite decide_True by lia. reflexivity.
    + rewrite H1. case_decide as Hhere.
      * assert (g = g0) as -> by lia. rewrite decide_True by lia.
        f_equal. lia.
      * rewrite decide_False by lia. reflexivity.
Qed.

Lemma swap_groups_total (n : nat) :
  forall (g0 : nat) (buf : list byte),
    (4 * (g0 + n) <= length buf)%nat -> is_Some (swap_groups n (4 * g0) buf).
Proof.
  induction n as [|n IH]; intros g0 buf Hlen; cbn [swap_groups]; [eauto|].
  destruct (swap_group_total buf (4 * g0) ltac:(lia)) as [buf1 H1].
  rewrite H1. cbn [mbind option_bind].
  replace (4 * g0 + 4)%nat with (4 * S g0)%nat by lia.
  apply IH. apply swap_group_lookup in H1 as [-> _]. lia.
Qed.

(** The whole operation on the first [size] bytes of a buffer that is
    at least that long. *)
Lemma swap_buffer_lookup (buffer : list byte) (size : Z) :
  0 <= size < 65536 -> size mod 4 = 0 -> size <= Z.of_nat (length buffer) ->
  exists swapped,
    VL53L5CX_SwapBuffer buffer size = Some swapped /\
    length swapped = length buffer /\
    forall g r : nat, (r < 4)%nat ->
      swapped !! (4 * g + r)%nat =
      if decide (4 * Z.of_nat g < size)
      then buffer !! (4 * g + (3 - r))%nat
      else buffer !! (4 * g + r)%nat.
Proof.
  intros Hrange Hmod Hlen. unfold VL53L5CX_SwapBuffer.
  replace (0 <=? size) with true by (symmetry; apply Z.leb_le; lia).
  replace (size <? 65536) with true by (symmetry; apply Z.ltb_lt; lia).
  rewrite Hmod. cbn [andb Z.eqb].
  apply Z.mod_divide in Hmod as [k Hk]; [|lia].
  assert (Hdiv : size / 4 = k) by (subst size; apply Z.div_mul; lia).
  rewrite Hdiv.
  destruct (swap_groups_total (Z.to_nat k) 0 buffer ltac:(lia)) as [swapped Hsw].
  exists swapped. split; [exact Hsw|].
  apply (swap_groups_lookup _ 0) in Hsw as [Hl Hsw]. split; [exact Hl|].
  intros g r Hr. rewrite (Hsw g r Hr).
  destruct (decide (0 <= g < 0 + Z.to_nat k)%nat);
    destruct (decide (4 * Z.of_nat g < size)); try reflexivity; lia.
Qed.

(** C3.  On a buffer whose length is the multiple of 4 passed as
    [size], the swap succeeds, keeps the length and puts at offset [r]
    of every group the byte that was at offset [3 - r] of the same
    group; on twelve bytes [A .. L] the result is
    [D C B A  H G F E  L K J I]. *)
Theorem swap_buffer_reverses_groups :
  (forall (buffer : list byte) (size : Z),
     Z.of_nat (length buffer) = size -> size mod 4 = 0 -> size < 65536 ->
     exists swapped,
       VL53L5CX_SwapBuffer buffer size = Some swapped /\
       length swapped = length buffer /\
       forall g r : nat, (r < 4)%nat -> (4 * g + r < length buffer)%nat ->
         swapped !! (4 * g + r)%nat = buffer !! (4 * g + (3 - r))%nat) /\
  (forall A B C D E F G H I J K L : byte,
     VL53L5CX_SwapBuffer [A; B; C; D; E; F; G; H; I; J; K; L] 12
     = Some [D; C; B; A; H; G; F; E; L; K; J; I]).
Proof.
  split; [|reflexivity].
  intros buffer size Hlen Hmod Hmax.
  destruct (swap_buffer_lookup buffer size) as (swapped & Hsw & Hl & Hlook);
    try lia.
  exists swapped. split; [exact Hsw|]. split; [exact Hl|].
  intros g r Hr Hin. rewrite (Hlook g r Hr). rewrite decide_True by lia.
  reflexivity.
Qed.

Lemma swap_buffer_reverses_groups_witness :
  exists swapped,
    VL53L5CX_SwapBuffer
      [Byte.x0a; Byte.x0b; Byte.x0c; Byte.x0d; Byte.x01; Byte.x02; Byte.x03; Byte.x04] 8
    = Some swapped /\
    swapped !! 5%nat = Some Byte.x03.
Proof.
  destruct (proj1 swap_buffer_reverses_groups
              [Byte.x0a; Byte.x0b; Byte.x0c; Byte.x0d;
               Byte.x01; Byte.x02; Byte.x03; Byte.x04] 8)
    as (swapped & Hsw & _ & Hlook).
  - reflexivity.
  - reflexivity.
  - lia.
  - exists swapped. split; [exact Hsw|].
    apply (Hlook 1%nat 1%nat); cbn; lia.
Defined.

(** C2.  On a buffer whose length is the multiple of 4 passed as
    [size], swapping twice gives back the buffer byte for byte. *)
Theorem swap_buffer_involution (buffer : list byte) (size : Z) :
  Z.of_nat (length buffer) = size -> size mod 4 = 0 -> size < 65536 ->
  exists once,
    VL53L5CX_SwapBuffer buffer size = Some once /\
    VL53L5CX_SwapBuffer once size = Some buffer.
Proof.
  intros Hlen Hmod Hmax.
  destruct (swap_buffer_lookup buffer size) as (once & H1 & Hl1 & Hlook1);
    try lia.
  destruct (swap_buffer_lookup once size) as (twice & H2 & Hl2 & Hlook2);
    try lia.
  exists once. split; [exact H1|]. rewrite H2. f_equal.
  apply list_eq. intros i.
  rewrite (Nat.div_mod_eq i 4).
  pose proof (Nat.mod_upper_bound i 4 ltac:(lia)) as Hr.
  set (g := (i / 4)%nat) in *. set (r := (i mod 4)%nat) in *.
  rewrite (Hlook2 g r Hr). case_decide.
  - rewrite (Hlook1 g (3 - r)%nat ltac:(lia)). rewrite decide_True by lia.
    f_equal. lia.
  - rewrite (Hlook1 g r Hr). rewrite decide_False by lia. reflexivity.
Qed.

Lemma swap_buffer_involution_witness :
  exists once,
    VL53L5CX_SwapBuffer [Byte.x01; Byte.x02; Byte.x03; Byte.x04] 4 = Some once /\
    VL53L5CX_SwapBuffer once 4 = Some [Byte.x01; Byte.x02; Byte.x03; Byte.x04].
Proof.
  apply (swap_buffer_involution [Byte.x01; Byte.x02; Byte.x03; Byte.x04] 4).
  - reflexivity.
  - reflexivity.
  - lia.
Defined.

(** *** Read multiple, write multiple *)

Section MultiFrame.
Context {T : Type} `{Transport T}.

(** A burst read of [count] bytes from index [i] on writes inside
    [i .. i + count - 1] only, keeps the length and ends in one of the
    two statuses. *)
Lemma read_from_frame (count : nat) :
  forall (i : nat) (p : T) (addr : Z) (out : list byte),
    exists p' out' st,
      read_from count i p addr out = (p', out', st) /\
      length out' = length out /\
      (forall j : nat, (j < i \/ i + count <= j)%nat -> out' !! j = out !! j) /\
      (st = STATUS_OK \/ st = STATUS_ERROR).
Proof.
  induction count as [|n IH]; intros i p addr out; cbn [read_from].
  - exists p, out, STATUS_OK. auto.
  - destruct (burst_read p addr i) as [p1 [b|]].
    + destruct (IH (S i) p1 addr (<[i := b]> out))
        as (p' & out' & st & Hrun & Hlen & Hframe & Hst).
      exists p', out', st. split; [exact Hrun|].
      split; [now rewrite Hlen, length_insert|]. split; [|exact Hst].
      intros j Hj. rewrite Hframe by lia.
      apply list_lookup_insert_ne. lia.
    + exists p1, out, STATUS_ERROR. auto.
Qed.

Lemma write_from_total (count : nat) :
  forall (i : nat) (p : T) (addr : Z) (values : list byte),
    (i + count <= length values)%nat ->
    is_Some (write_from count i p addr values).
Proof.
  induction count as [|n IH]; intros i p addr values Hlen; cbn [write_from].
  - eauto.
  - destruct (lookup_lt_is_Some_2 values i ltac:(lia)) as [b ->].
    cbn [mbind option_bind].
    destruct (burst_write p addr i b) as [p1 [|]]; [|eauto].
    apply IH. lia.
Qed.

(** A burst write looks at the bytes [i .. i + count - 1] only. *)
Lemma write_from_reads (count : nat) :
  forall (i : nat) (p : T) (addr : Z) (v1 v2 : list byte),
    (forall j : nat, (i <= j < i + count)%nat -> v1 !! j = v2 !! j) ->
    write_from count i p addr v1 = write_from count i p addr v2.
Proof.
  induction count as [|n IH]; intros i p addr v1 v2 Hsame; cbn [write_from].
  - reflexivity.
  - rewrite (Hsame i) by lia. destruct (v2 !! i) as [b|]; [|reflexivity].
    cbn [mbind option_bind].
    destruct (burst_write p addr i b) as [p1 [|]]; [|reflexivity].
    apply IH. intros j Hj. apply Hsame. lia.
Qed.

Lemma multi_in_contract (size : Z) (buffer : list byte) :
  0 <= size < 2 ^ 32 -> size <= Z.of_nat (length buffer) ->
  (0 <=? size) && (size <? 2 ^ 32) && (size <=? Z.of_nat (length buffer)) = true.
Proof.
  intros Hrange Hlen. rewrite !andb_true_iff.
  repeat split; [apply Z.leb_le | apply Z.ltb_lt | apply Z.leb_le]; lia.
Qed.

(** C7.  For a [size] within the buffer: read-multiple returns, keeps
    the length of the buffer and leaves every byte at index [size] or
    beyond as it was; write-multiple returns and its outcome is the
    same for every buffer with the same first [size] bytes, so it
    reads no byte beyond them; with [size] 0 both leave the transport
    and the buffer alone and return status 0. *)
Theorem multi_transfers_stay_within_size
    (p : T) (addr : Z) (buffer : list byte) (size : Z) :
  0 <= size < 2 ^ 32 -> size <= Z.of_nat (length buffer) ->
  (exists p' out st,
     VL53L5CX_RdMulti p addr buffer size = Some (p', out, st) /\
     length out = length buffer /\
     (forall j : nat, size <= Z.of_nat j -> out !! j = buffer !! j) /\
     (size = 0 -> p' = p /\ out = buffer /\ st = 0)) /\
  (exists p' st,
     VL53L5CX_WrMulti p addr buffer size = Some (p', st) /\
     (forall other : list byte,
        size <= Z.of_nat (length other) ->
        take (Z.to_nat size) other = take (Z.to_nat size) buffer ->
        VL53L5CX_WrMulti p addr other size = Some (p', st)) /\
     (size = 0 -> p' = p /\ st = 0)).
Proof.
  intros Hrange Hlen. split.
  - unfold VL53L5CX_RdMulti. rewrite multi_in_contract by assumption.
    destruct (read_from_frame (Z.to_nat size) 0 p addr buffer)
      as (p' & out & st & Hrun & Hl & Hframe & _).
    exists p', out, st. rewrite Hrun. split; [reflexivity|].
    split; [exact Hl|]. split.
    + intros j Hj. apply Hframe. lia.
    + intros ->. cbn in Hrun. injection Hrun as <- <- <-. auto.
  - unfold VL53L5CX_WrMulti. rewrite multi_in_contract by assumption.
    destruct (write_from_total (Z.to_nat size) 0 p addr buffer ltac:(lia))
      as [[p' st] Hrun].
    exists p', st. split; [exact Hrun|]. split.
    + intros other Hother Htake.
      rewrite multi_in_contract by assumption. rewrite <- Hrun.
      apply write_from_reads. intros j Hj.
      rewrite <- (lookup_take_lt other (Z.to_nat size) j) by lia.
      rewrite <- (lookup_take_lt buffer (Z.to_nat size) j) by lia.
      now rewrite Htake.
    + intros ->. cbn in Hrun. injection Hrun as <- <-. auto.
Qed.

End MultiFrame.

Lemma multi_transfers_stay_within_size_witness :
  (exists p' out st,
     VL53L5CX_RdMulti four_registers 2 [Byte.x00; Byte.x00; Byte.x00] 2
       = Some (p', out, st) /\
     length out = 3%nat /\
     (forall j : nat, 2 <= Z.of_nat j ->
        out !! j = [Byte.x00; Byte.x00; Byte.x00] !! j) /\
     (2 = 0 -> p' = four_registers /\ out = [Byte.x00; Byte.x00; Byte.x00] /\ st = 0)) /\
  (exists p' st,
     VL53L5CX_WrMulti four_registers 2 [Byte.x00; Byte.x00; Byte.x00] 2
       = Some (p', st) /\
     (forall other : list byte,
        2 <= Z.of_nat (length other) ->
        take (Z.to_nat 2) other = take (Z.to_nat 2) [Byte.x00; Byte.x00; Byte.x00] ->
        VL53L5CX_WrMulti four_registers 2 other 2 = Some (p', st)) /\
     (2 = 0 -> p' = four_registers /\ st = 0)).
Proof.
  apply (multi_transfers_stay_within_size
           four_registers 2 [Byte.x00; Byte.x00; Byte.x00] 2).
  - lia.
  - cbn. lia.
Defined.

(** *** The models at work *)

Example read_two_of_three :
  VL53L5CX_RdMulti four_registers 2 [Byte.x00; Byte.x00; Byte.x00] 2
  = Some (four_registers, [Byte.xff; Byte.xff; Byte.x00], 0).
Proof. reflexivity. Qed.

Example read_past_the_last_register :
  VL53L5CX_RdMulti four_registers 3 [Byte.x00; Byte.x00; Byte.x00] 3
  = Some (four_registers, [Byte.xff; Byte.x00; Byte.x00], 255).
Proof. reflexivity. Qed.

Example read_nothing :
  VL53L5CX_RdMulti four_registers 3 [Byte.x00; Byte.x00; Byte.x00] 0
  = Some (four_registers, [Byte.x00; Byte.x00; Byte.x00], 0).
Proof. reflexivity. Qed.

Example write_past_the_last_register :
  snd <$> VL53L5CX_WrMulti four_registers 3 [Byte.x01; Byte.x02] 2 = Some 255.
Proof. reflexivity. Qed.

Example swap_one_group :
  VL53L5CX_SwapBuffer [Byte.x01; Byte.x02; Byte.x03; Byte.x04] 4
  = Some [Byte.x04; Byte.x03; Byte.x02; Byte.x01].
Proof. reflexivity. Qed.

Example swap_prefix_only :
  VL53L5CX_SwapBuffer
    [Byte.x01; Byte.x02; Byte.x03; Byte.x04; Byte.x05; Byte.x06; Byte.x07; Byte.x08] 4
  = Some [Byte.x04; Byte.x03; Byte.x02; Byte.x01; Byte.x05; Byte.x06; Byte.x07; Byte.x08].
Proof. reflexivity. Qed.

Example swap_outside_the_contract :
  VL53L5CX_SwapBuffer [Byte.x01; Byte.x02; Byte.x03; Byte.x04; Byte.x05; Byte.x06] 6
  = None.
Proof. reflexivity. Qed.

Example handle_on_ilp32 : handle_layout ilp32 = Some (Layout 24 8).
Proof. reflexivity. Qed.

Example no_build_on_16_bit_int :
  translate ip16 [] platform_h = BuildError "uint32_t wrong size".
Proof. reflexivity. Qed.

(** ** Further properties of the headers *)

Import Surface.

(** *** [fake/stdint.h] *)

(** X1.  [fake/stdint.h] builds exactly on the ABIs whose [short] is
    2 bytes and whose [int] is 4 bytes wide; alignments and the size
    of pointers play no part, and the scope it leaves binds the five
    names to the layouts of their underlying types. *)
Theorem stdint_builds_iff_abi_matches (a : abi) (sc : scope) :
  translate a [] stdint_h = Built sc <->
  (sizeof_short a = 2 /\ sizeof_int a = 4) /\
  sc = [ ("uint32_t", Layout (sizeof_int a) (alignof_int a));
         ("uint16_t", Layout (sizeof_short a) (alignof_short a));
         ("uint8_t", Layout 1 1);
         ("int16_t", Layout (sizeof_short a) (alignof_short a));
         ("int8_t", Layout 1 1) ].
Proof. apply stdint_built_iff. Qed.

Lemma stdint_builds_iff_abi_matches_witness :
  translate (Abi 2 1 4 8 8 8) [] stdint_h
  = Built [ ("uint32_t", Layout 4 8); ("uint16_t", Layout 2 1);
            ("uint8_t", Layout 1 1); ("int16_t", Layout 2 1);
            ("int8_t", Layout 1 1) ].
Proof.
  apply (proj2 (stdint_builds_iff_abi_matches (Abi 2 1 4 8 8 8) _)).
  split; [split|]; reflexivity.
Defined.

(** The build stops with the first diagnostic, and builds when there
    is none. *)
Lemma translate_first_diagnostic (a : abi) (ds : list C.decl) :
  forall sc,
    match translate a sc ds with
    | Built _ => diagnose a sc ds = []
    | BuildError msg => head (diagnose a sc ds) = Some msg
    end.
Proof.
  induction ds as [|d ds IH]; intros sc; cbn [translate diagnose].
  - reflexivity.
  - destruct (C.declare a sc d) as [sc'|msg]; [apply IH | reflexivity].
Qed.

(** X2.  The diagnostics of [fake/stdint.h], each failed assertion
    with its own message and in source order: the assertions on
    [int16_t] and [uint16_t] fail together, exactly when [short] is
    not 2 bytes wide; the one on [uint32_t] fails exactly when [int]
    is not 4 bytes wide; the ones on [int8_t] and [uint8_t] never
    fail.  The header builds exactly when there is no diagnostic. *)
Theorem stdint_diagnostics (a : abi) :
  diagnose a [] stdint_h =
    ((if sizeof_short a =? 2 then []
      else ["int16_t wrong size"; "uint16_t wrong size"])
     ++ (if sizeof_int a =? 4 then [] else ["uint32_t wrong size"]))%list /\
  ~ In "int8_t wrong size" (diagnose a [] stdint_h) /\
  ~ In "uint8_t wrong size" (diagnose a [] stdint_h) /\
  (diagnose a [] stdint_h = [] <->
   translate a [] stdint_h = Built (stdint_scope a)).
Proof.
  assert (Hd : diagnose a [] stdint_h =
    ((if sizeof_short a =? 2 then []
      else ["int16_t wrong size"; "uint16_t wrong size"])
     ++ (if sizeof_int a =? 4 then [] else ["uint32_t wrong size"]))%list).
  { cbn. destruct (sizeof_short a =? 2) eqn:Hs; cbn; rewrite ?Hs; cbn;
      destruct (sizeof_int a =? 4); reflexivity. }
  rewrite Hd, translate_stdint_h.
  destruct (sizeof_short a =? 2), (sizeof_int a =? 4); cbn;
    repeat split; try discriminate; try reflexivity;
    intros H; repeat (destruct H as [H|H]); try discriminate; contradiction.
Qed.

Lemma stdint_diagnostics_witness :
  diagnose (Abi 4 4 2 2 4 4) [] stdint_h
  = ["int16_t wrong size"; "uint16_t wrong size"; "uint32_t wrong size"] /\
  diagnose ilp32 [] stdint_h = [].
Proof.
  split.
  - apply (proj1 (stdint_diagnostics (Abi 4 4 2 2 4 4))).
  - apply (proj2 (proj2 (proj2 (proj2 (stdint_diagnostics ilp32))))).
    reflexivity.
Defined.

(** *** [platform.h] *)



(** *** [wrap.h] *)






Lemma enumerate_bindings (ms : Wrap.macros) (es : list (string * string)) :
  forall members, Wrap.enumerate ms es = Some members ->
    Forall2 (exports_binding ms) es
      (map (fun e => (fst e, Wrap.VInt (snd e))) members).
Proof.
  induction es as [|[name init] es IH]; intros members; cbn [Wrap.enumerate].
  - intros [= <-]. constructor.
  - destruct (Wrap.macro_value ms init) as [[n|s]|] eqn:Hinit; try discriminate.
    destruct (Wrap.enumerate ms es) as [tl|]; [|discriminate].
    intros [= <-]. cbn [map fst snd]. constructor; [|apply IH; reflexivity].
    split; [reflexivity | exact Hinit].
Qed.

(** X6.  The table of a header that compiles is its list of
    declarations with every initialiser replaced by its value: one
    export per [const] and per enumerator, in source order, under the
    declared name and with exactly the value of the vendor macro; the
    conversion of a [const uint8_t] initialiser changes nothing. *)
Theorem exports_are_the_bindings (ms : Wrap.macros) (ds : list Wrap.decl) :
  forall syms, Wrap.symbols ms ds = Some syms ->
    Forall2 (exports_binding ms) (bindings ds) (Wrap.exported syms).
Proof.
  induction ds as [|d ds IH]; intros syms; cbn [Wrap.symbols].
  - intros [= <-]. constructor.
  - destruct (Wrap.declare ms d) as [sym|] eqn:Hd; [|discriminate].
    destruct (Wrap.symbols ms ds) as [tl|]; [|discriminate].
    intros [= <-]. specialize (IH tl eq_refl).
    change (bindings (d :: ds)) with (bindings_of d ++ bindings ds)%list.
    destruct d as [name init | name init | tag es]; cbn in Hd.
    + destruct (Wrap.macro_value ms init) as [[n|s]|] eqn:Hinit;
        try discriminate. injection Hd as <-.
      cbn. constructor; [split; [reflexivity | exact Hinit] | exact IH].
    + destruct (Wrap.macro_value ms init) as [[n|s]|] eqn:Hinit;
        try discriminate. injection Hd as <-.
      cbn. constructor; [|exact IH]. split; [reflexivity|]. cbn.
      rewrite Hinit. apply macro_value_int in Hinit as [_ ->]. reflexivity.
    + destruct (Wrap.enumerate ms es) as [members|] eqn:He; [|discriminate].
      injection Hd as <-. cbn [Wrap.exported bindings_of].
      apply Forall2_app; [|exact IH]. now apply enumerate_bindings.
Qed.

Lemma exports_are_the_bindings_witness :
  exists syms, Wrap.wrap_symbols Wrap.vl53l5cx_api_h = Some syms /\
    Forall2 (exports_binding Wrap.vl53l5cx_api_h)
      (bindings Wrap.wrap_h) (Wrap.exported syms).
Proof.
  destruct (Wrap.wrap_symbols Wrap.vl53l5cx_api_h) as [syms|] eqn:Hsyms;
    [|discriminate Hsyms].
  exists syms. split; [reflexivity|].
  apply (exports_are_the_bindings Wrap.vl53l5cx_api_h Wrap.wrap_h syms Hsyms).
Defined.

(** X8.  Whatever the vendor header, [wrap.h] exports the same
    eleven names, in source order and no name twice; none of the
    constants that the header keeps in comments is among them. *)
Theorem wrap_exported_names (ms : Wrap.macros)
    (tbl : list (string * Wrap.value)) :
  Wrap.wrap_exports ms = Some tbl ->
  map fst tbl =
    [ "API_REVISION"; "_4X4"; "_8X8"; "CLOSEST"; "STRONGEST"; "CONTINUOUS";
      "AUTONOMOUS"; "SLEEP"; "WAKEUP"; "ST_OK"; "ST_ERROR" ] /\
  NoDup (map fst tbl) /\
  forall name, In name disabled_names -> Wrap.lookup_constant name tbl = None.
Proof.
  intros Hex.
  apply wrap_exports_inv in Hex
    as (rev & r4 & r8 & oc & os & mc & ma & ps & pw & ok & err & _ & _ & _
        & _ & _ & _ & _ & _ & _ & _ & _ & _ & ->).
  split; [reflexivity|]. split.
  - cbn [map fst]. repeat (apply NoDup_cons; split;
      [cbn; rewrite !list_elem_of_In; cbn; intuition discriminate|]).
    apply NoDup_nil. exact I.
  - intros name Hin. cbn in Hin.
    repeat (destruct Hin as [<- | Hin]); try contradiction; reflexivity.
Qed.

Lemma wrap_exported_names_witness :
  exists tbl, Wrap.wrap_exports Wrap.vl53l5cx_api_h = Some tbl /\
    length tbl = 11%nat /\
    Wrap.lookup_constant "MCU_ERROR" tbl = None.
Proof.
  destruct (Wrap.wrap_exports Wrap.vl53l5cx_api_h) as [tbl|] eqn:Hex;
    [|discriminate Hex].
  destruct (wrap_exported_names Wrap.vl53l5cx_api_h tbl Hex)
    as (Hnames & _ & Hoff).
  exists tbl. split; [reflexivity|]. split.
  - rewrite <- (length_map fst), Hnames. reflexivity.
  - apply Hoff. cbn. tauto.
Defined.

(** X9.  [API_REVISION] is exported with exactly the string of the
    vendor's revision macro, whatever that string is; it is the one
    export that is not an integer. *)
Theorem api_revision_exported (ms : Wrap.macros)
    (tbl : list (string * Wrap.value)) :
  Wrap.wrap_exports ms = Some tbl ->
  (exists rev,
     Wrap.macro_value ms "VL53L5CX_API_REVISION" = Some (Wrap.VStr rev) /\
     Wrap.lookup_constant "API_REVISION" tbl = Some (Wrap.VStr rev)) /\
  (forall name s, In (name, Wrap.VStr s) tbl -> name = "API_REVISION").
Proof.
  intros Hex.
  apply wrap_exports_inv in Hex
    as (rev & r4 & r8 & oc & os & mc & ma & ps & pw & ok & err & Hrev & _ & _
        & _ & _ & _ & _ & _ & _ & _ & _ & _ & ->).
  split; [exists rev; split; [exact Hrev | reflexivity]|].
  intros name s Hin. cbn in Hin.
  repeat (destruct Hin as [Hin | Hin]); try contradiction; try discriminate.
  injection Hin as <- _. reflexivity.
Qed.

Lemma api_revision_exported_witness :
  exists tbl, Wrap.wrap_exports Wrap.vl53l5cx_api_h = Some tbl /\
    Wrap.lookup_constant "API_REVISION" tbl = Some (Wrap.VStr "VL53L5CX_2.0.0").
Proof.
  destruct (Wrap.wrap_exports Wrap.vl53l5cx_api_h) as [tbl|] eqn:Hex;
    [|discriminate Hex].
  destruct (api_revision_exported Wrap.vl53l5cx_api_h tbl Hex)
    as [(rev & Hrev & Hl) _].
  exists tbl. split; [reflexivity|]. rewrite Hl. f_equal. f_equal.
  cbn in Hrev. injection Hrev as <-. reflexivity.
Defined.
